(** * Reference pages for imports: [reference/_pages/Import.tsx]

    A shallow embedding of the import page renderer of the reference
    generator, and the properties of its emitted pages.

    - JavaScript strings are [string]s: one [ascii] per code unit, which
      covers the code units U+0000 to U+00FF.
    - [String.prototype.toLocaleLowerCase] follows the default locale of the
      host. [JsString.toLocaleLowerCase] is the lower-casing of every locale
      without a tailoring of its own (all but tr, az and lt); [Host] has the
      locale as a parameter and gives the url of each host.
    - The records handed over by the extraction step are JSON data; numbers
      are the integers (line, column and byte offsets).
    - The [ReferenceContext] is an object shared by reference: it lives in a
      store and the renderer holds its address.
    - [getPages] is a generator function: its result is a generator object
      that is resumed by [next]. *)

From Stdlib Require Import String Ascii List ZArith NArith Lia Bool.
From Stdlib Require Import DecimalString DecimalZ Decimal DecimalFacts.
Import ListNotations.

Local Open Scope list_scope.
Local Open Scope string_scope.

(** ** JavaScript strings *)

Module JsString.

(** Lower case of one code unit in U+0000..U+00FF: A-Z, and the Latin-1
    capitals U+00C0..U+00DE except the multiplication sign U+00D7. *)
Definition is_upper (c : ascii) : bool :=
  let n := N_of_ascii c in
  ((65 <=? n) && (n <=? 90) || (192 <=? n) && (n <=? 222) && negb (n =? 215))%N.

Definition lower_unit (c : ascii) : ascii :=
  if is_upper c then ascii_of_N (N_of_ascii c + 32) else c.

(** [s.toLocaleLowerCase()] on a host whose default locale has no tailoring;
    [Host.toLocaleLowerCase], further down, takes the locale. *)
Fixpoint toLocaleLowerCase (s : string) : string :=
  match s with
  | EmptyString => EmptyString
  | String c r => String (lower_unit c) (toLocaleLowerCase r)
  end.

(** White space of ECMAScript among the code units below U+0100: TAB, LF,
    VT, FF, CR, SP and NBSP. *)
Definition is_white_space (c : ascii) : bool :=
  let n := N_of_ascii c in
  ((9 <=? n) && (n <=? 13) || (n =? 32) || (n =? 160))%N.

Fixpoint forallb (p : ascii -> bool) (s : string) : bool :=
  match s with
  | EmptyString => true
  | String c r => p c && forallb p r
  end.

(** No upper-case letter occurs in [s]. *)
Definition is_lowercase (s : string) : bool :=
  forallb (fun c => negb (is_upper c)) s.

(** No white space occurs in [s]. *)
Definition no_white_space (s : string) : bool :=
  forallb (fun c => negb (is_white_space c)) s.

(** [s.startsWith(p)] and [s.endsWith(p)] *)
Definition startsWith (s p : string) : bool := String.prefix p s.

Definition endsWith (s p : string) : bool :=
  let n := String.length s in
  let m := String.length p in
  (m <=? n)%nat && String.eqb (String.substring (n - m) m s) p.

End JsString.

(** ** JSON data *)

#[local] Unset Elimination Schemes.

Inductive JsValue : Type :=
| JsNull
| JsBool (b : bool)
| JsNumber (n : Z)
| JsStr (s : string)
| JsArray (items : list JsValue)
| JsObject (props : list (string * JsValue)).

#[local] Set Elimination Schemes.

(** ** The symbol records: [DocNode] and [DocNodeImport]

    Both are declared in [@deno/doc/types], which is not part of the
    repository. The renderer reads [name] and serialises the whole record. *)

(** The kinds of section 3 of the spec. *)

Inductive DocNodeKind : Type :=
| KindImport
| KindFunction
| KindClass
| KindInterface
| KindVariable
| KindTypeAlias
| KindEnum
| KindNamespace.

(** The discriminant as it is written in the record. *)
Definition kind_string (k : DocNodeKind) : string :=
  match k with
  | KindImport => "import"
  | KindFunction => "function"
  | KindClass => "class"
  | KindInterface => "interface"
  | KindVariable => "variable"
  | KindTypeAlias => "typeAlias"
  | KindEnum => "enum"
  | KindNamespace => "namespace"
  end.

(** Modelled from the spec: a Symbol Record has a [name], a [kind] and a
    variant-specific payload of arbitrary nested structure; the payload is
    kept as the remaining properties of the object, in their order. *)
Record DocNodeBase : Type := {
  name : string;
  payload : list (string * JsValue)
}.

(** [DocNodeImport]: its [kind] is the literal type ["import"], so a value of
    it is given by the other properties. *)
Definition DocNodeImport : Type := DocNodeBase.

(** [DocNode]: the union of the records of all kinds. *)
Record DocNode : Type := {
  kind : DocNodeKind;
  base :> DocNodeBase
}.

(** A [DocNodeImport] used where a [DocNode] is expected. *)
Definition as_DocNode (item : DocNodeImport) : DocNode :=
  {| kind := KindImport; base := item |}.

(** The record as the JavaScript object [JSON.stringify] walks through: the
    discriminant, the name, and the payload in its order. *)
Definition DocNode_value (d : DocNode) : JsValue :=
  JsObject (("kind", JsStr (kind_string (kind d)))
            :: ("name", JsStr (name d))
            :: payload d).

(** ** The reference context and the store *)

(** Modelled from the spec: [ReferenceContext] is declared in
    [reference/types.ts], which is not under src/. It has the [root] of the
    site and the [packageName]; [others] holds the properties this renderer
    never reads. *)
Record ReferenceContext : Type := {
  root : string;
  packageName : string;
  others : list (string * JsValue)
}.

(** The address of a context object. *)
Definition Ref : Type := nat.

(** The store of the context objects. *)
Record Store : Type := {
  contexts : Ref -> ReferenceContext
}.

(** [context.p = v] as a store update; the renderer never runs it, it is
    what a mutation of the context would be. *)
Definition assign (r : Ref) (c : ReferenceContext) (st : Store) : Store :=
  {| contexts := fun r' => if Nat.eqb r' r then c else contexts st r' |}.

(** Computations that read and write the store. *)
Definition M (A : Type) : Type := Store -> A * Store.

Definition ret {A} (a : A) : M A := fun st => (a, st).

Definition bind {A B} (m : M A) (k : A -> M B) : M B :=
  fun st => let (a, st') := m st in k a st'.

Notation "x <- m ;; k" := (bind m (fun x => k))
  (at level 61, m at next level, right associativity).

(** [context.root] and [context.packageName] *)
Definition get_root (r : Ref) : M string :=
  fun st => (root (contexts st r), st).

Definition get_packageName (r : Ref) : M string :=
  fun st => (packageName (contexts st r), st).

(** ** [JSON.stringify(value, null, space)]

    The serialisation of ECMAScript (SerializeJSONProperty and its
    companions) on JSON data. *)

Module JSON.

Definition LF : string := String (ascii_of_N 10) "".

Definition DQUOTE : ascii := ascii_of_N 34.

Definition hex_digit (n : N) : ascii :=
  if (n <? 10)%N then ascii_of_N (48 + n) else ascii_of_N (87 + n).

(** UnicodeEscape: a backslash, [u] and four lower-case hexadecimal
    digits. *)
Definition UnicodeEscape (c : ascii) : string :=
  let n := N_of_ascii c in
  "\u00" ++ String (hex_digit (n / 16)) (String (hex_digit (n mod 16)) "").

(** One code unit of QuoteJSONString. *)
Definition quote_unit (c : ascii) : string :=
  let n := N_of_ascii c in
  if (n =? 8)%N then "\b"
  else if (n =? 9)%N then "\t"
  else if (n =? 10)%N then "\n"
  else if (n =? 12)%N then "\f"
  else if (n =? 13)%N then "\r"
  else if (n =? 34)%N then String "\" (String DQUOTE "")
  else if (n =? 92)%N then "\\"
  else if (n <? 32)%N then UnicodeEscape c
  else String c "".

Fixpoint quote_units (s : string) : string :=
  match s with
  | EmptyString => ""
  | String c r => quote_unit c ++ quote_units r
  end.

Definition QuoteJSONString (s : string) : string :=
  String DQUOTE (quote_units s ++ String DQUOTE "").

(** Number::toString on an integer. *)
Definition NumberToString (n : Z) : string :=
  NilZero.string_of_int (Z.to_int n).

Fixpoint SerializeJSONProperty (gap indent : string) (v : JsValue) {struct v}
  : string :=
  match v with
  | JsNull => "null"
  | JsBool true => "true"
  | JsBool false => "false"
  | JsNumber n => NumberToString n
  | JsStr s => QuoteJSONString s
  | JsArray items =>
      let stepback := indent in
      let indent := indent ++ gap in
      let partial := map (SerializeJSONProperty gap indent) items in
      match partial with
      | [] => "[]"
      | _ =>
          if String.eqb gap "" then "[" ++ String.concat "," partial ++ "]"
          else "[" ++ LF ++ indent
                   ++ String.concat ("," ++ LF ++ indent) partial
                   ++ LF ++ stepback ++ "]"
      end
  | JsObject props =>
      let stepback := indent in
      let indent := indent ++ gap in
      let partial :=
        map (fun kv : string * JsValue =>
               QuoteJSONString (fst kv)
               ++ (if String.eqb gap "" then ":" else ": ")
               ++ SerializeJSONProperty gap indent (snd kv)) props in
      match partial with
      | [] => "{}"
      | _ =>
          if String.eqb gap "" then "{" ++ String.concat "," partial ++ "}"
          else "{" ++ LF ++ indent
                   ++ String.concat ("," ++ LF ++ indent) partial
                   ++ LF ++ stepback ++ "}"
      end
  end.

Fixpoint spaces (n : nat) : string :=
  match n with
  | O => ""
  | S n => String " " (spaces n)
  end.

(** [JSON.stringify(v, null, space)] with a number for [space]: the gap is
    that many spaces, ten at most. *)
Definition stringify (v : JsValue) (space : nat) : string :=
  SerializeJSONProperty (spaces (Nat.min 10 space)) "" v.

End JSON.

(** ** The page and its content *)

(** [navigation={{ category, currentItemName }}] *)
Record Navigation : Type := {
  category : string;
  currentItemName : string
}.

#[local] Unset Elimination Schemes.

(** JSX elements. A function component is not called when its element is
    built: the element records the component and its props. *)
Inductive Jsx : Type :=
| JsxText (s : string)
| JsxIntrinsic (tag : string) (children : list Jsx)
| JsxImport (data : DocNode) (context : Ref)
| JsxReferencePage (context : Ref) (navigation : Navigation)
                   (children : list Jsx).

#[local] Set Elimination Schemes.

(** [type Props = { data: DocNode; context: ReferenceContext }] *)
Record Props : Type := {
  data : DocNode;
  context : Ref
}.

(** [LumeDocument], as the object literal of [getPages] fills it. *)
Record LumeDocument : Type := {
  title : string;
  url : string;
  content : Jsx
}.

(** [export function Import({ data, context }: Props)] *)
Definition Import (props : Props) : M Jsx :=
  category_ <- get_packageName (context props) ;;
  ret (JsxReferencePage
         (context props)
         {| category := category_; currentItemName := name (data props) |}
         [ JsxText "I am a Import, my name is ";
           JsxText (name (data props));
           JsxIntrinsic "pre"
             [ JsxText (JSON.stringify (DocNode_value (data props)) 2) ] ]).

(** The JSX runtime calling a function component on its props. *)
Definition call_component (e : Jsx) : M Jsx :=
  match e with
  | JsxImport d c => Import {| data := d; context := c |}
  | _ => ret e
  end.

(** ** The generator of [getPages] *)

Inductive GeneratorState : Type :=
| SuspendedStart
| SuspendedYield
| Completed.

(** The generator object: the arguments of the call and where the body is
    suspended. *)
Record Generator : Type := {
  gen_item : DocNodeImport;
  gen_context : Ref;
  gen_state : GeneratorState
}.

(** [{ value, done: false }] or [{ value: undefined, done: true }] *)
Inductive IteratorResult : Type :=
| Yield (value : LumeDocument)
| Done.

(** [export default function* getPages(item, context)]: the call builds the
    generator object and runs nothing of the body. *)
Definition getPages (item : DocNodeImport) (context : Ref) : Generator :=
  {| gen_item := item; gen_context := context; gen_state := SuspendedStart |}.

Definition resume (g : Generator) (s : GeneratorState) : Generator :=
  {| gen_item := gen_item g; gen_context := gen_context g; gen_state := s |}.

(** [g.next()]: the body up to its [yield], then from the [yield] to the end
    of the function. *)
Definition next (g : Generator) : M (IteratorResult * Generator) :=
  match gen_state g with
  | SuspendedStart =>
      let item := gen_item g in
      let context := gen_context g in
      let title_ := name item in
      root_ <- get_root context ;;
      packageName_ <- get_packageName context ;;
      ret (Yield {| title := title_;
                    url := root_ ++ "/"
                           ++ JsString.toLocaleLowerCase packageName_ ++ "/"
                           ++ JsString.toLocaleLowerCase (name item)
                           ++ ".import";
                    content := JsxImport (as_DocNode item) context |},
           resume g SuspendedYield)
  | SuspendedYield => ret (Done, resume g Completed)
  | Completed => ret (Done, g)
  end.

(** [for (const page of g)] collecting the pages, as [Array.from(g)] does:
    [g] is its own iterator, and the loop calls [next] until [done]. *)
Fixpoint iterate (fuel : nat) (g : Generator)
  : M (option (list LumeDocument) * Generator) :=
  match fuel with
  | O => ret (None, g)
  | S fuel =>
      r <- next g ;;
      match fst r with
      | Done => ret (Some [], snd r)
      | Yield page =>
          rest <- iterate fuel (snd r) ;;
          ret (option_map (cons page) (fst rest), snd rest)
      end
  end.

(** ** Reading the dump back

    A reader of the JSON text that [JSON.stringify] writes, and the record
    rebuilt from the value it reads. *)

Module Reader.

Definition is_space (c : ascii) : bool :=
  let n := N_of_ascii c in
  ((n =? 32) || (n =? 10) || (n =? 13) || (n =? 9))%N.

Fixpoint skip_spaces (s : string) : string :=
  match s with
  | EmptyString => EmptyString
  | String c r => if is_space c then skip_spaces r else s
  end.

(** The rest of [s] after the prefix [p], if [s] starts with [p]. *)
Fixpoint strip_prefix (p s : string) : option string :=
  match p, s with
  | EmptyString, _ => Some s
  | String a p', String b s' =>
      if Ascii.eqb a b then strip_prefix p' s' else None
  | String _ _, EmptyString => None
  end.

Definition is_digit (c : ascii) : bool :=
  let n := N_of_ascii c in ((48 <=? n) && (n <=? 57))%N.

Fixpoint span_digits (s : string) : string * string :=
  match s with
  | EmptyString => (EmptyString, EmptyString)
  | String c r =>
      if is_digit c
      then let (ds, rest) := span_digits r in (String c ds, rest)
      else (EmptyString, s)
  end.

(** An optional minus sign and the digits that follow it. *)
Definition span_number (s : string) : string * string :=
  match s with
  | EmptyString => (EmptyString, EmptyString)
  | String c r =>
      if Ascii.eqb c "-"
      then let (ds, rest) := span_digits r in (String c ds, rest)
      else span_digits s
  end.

Definition read_number (s : string) : option (Z * string) :=
  let (ds, rest) := span_number s in
  match NilZero.int_of_string ds with
  | Some d => Some (Z.of_int d, rest)
  | None => None
  end.

Definition hex_value (c : ascii) : option N :=
  let n := N_of_ascii c in
  if ((48 <=? n) && (n <=? 57))%N then Some (n - 48)%N
  else if ((97 <=? n) && (n <=? 102))%N then Some (n - 87)%N
  else if ((65 <=? n) && (n <=? 70))%N then Some (n - 55)%N
  else None.

(** The code unit of a [\uXXXX] escape, when it is below U+0100. *)
Definition read_hex4 (a b c d : ascii) : option ascii :=
  match hex_value a, hex_value b, hex_value c, hex_value d with
  | Some 0%N, Some 0%N, Some h, Some l => Some (ascii_of_N (16 * h + l))
  | _, _, _, _ => None
  end.

Definition cons_unit (c : ascii) (r : option (string * string))
  : option (string * string) :=
  match r with
  | Some (s, rest) => Some (String c s, rest)
  | None => None
  end.

(** The code units of a string literal, from behind its opening quote to
    its closing quote. *)
Fixpoint read_string (s : string) : option (string * string) :=
  match s with
  | EmptyString => None
  | String c r =>
      if Ascii.eqb c JSON.DQUOTE then Some (EmptyString, r)
      else if Ascii.eqb c "\" then
        match r with
        | EmptyString => None
        | String e r' =>
            if Ascii.eqb e "b" then cons_unit (ascii_of_N 8) (read_string r')
            else if Ascii.eqb e "t" then cons_unit (ascii_of_N 9) (read_string r')
            else if Ascii.eqb e "n" then cons_unit (ascii_of_N 10) (read_string r')
            else if Ascii.eqb e "f" then cons_unit (ascii_of_N 12) (read_string r')
            else if Ascii.eqb e "r" then cons_unit (ascii_of_N 13) (read_string r')
            else if Ascii.eqb e JSON.DQUOTE then cons_unit JSON.DQUOTE (read_string r')
            else if Ascii.eqb e "\" then cons_unit "\" (read_string r')
            else if Ascii.eqb e "/" then cons_unit "/" (read_string r')
            else if Ascii.eqb e "u" then
              match r' with
              | String h1 (String h2 (String h3 (String h4 r''))) =>
                  match read_hex4 h1 h2 h3 h4 with
                  | Some u => cons_unit u (read_string r'')
                  | None => None
                  end
              | _ => None
              end
            else None
        end
      else cons_unit c (read_string r)
  end.

Fixpoint read_value (fuel : nat) (s : string) {struct fuel}
  : option (JsValue * string) :=
  match fuel with
  | O => None
  | S fuel =>
      match s with
      | EmptyString => None
      | String c r =>
          if Ascii.eqb c "n" then
            option_map (pair JsNull) (strip_prefix "ull" r)
          else if Ascii.eqb c "t" then
            option_map (pair (JsBool true)) (strip_prefix "rue" r)
          else if Ascii.eqb c "f" then
            option_map (pair (JsBool false)) (strip_prefix "alse" r)
          else if Ascii.eqb c JSON.DQUOTE then
            match read_string r with
            | Some (str, rest) => Some (JsStr str, rest)
            | None => None
            end
          else if Ascii.eqb c "[" then
            match skip_spaces r with
            | EmptyString => None
            | String c' r' as body =>
                if Ascii.eqb c' "]" then Some (JsArray [], r')
                else
                  match read_items fuel body with
                  | Some (items, rest) => Some (JsArray items, rest)
                  | None => None
                  end
            end
          else if Ascii.eqb c "{" then
            match skip_spaces r with
            | EmptyString => None
            | String c' r' as body =>
                if Ascii.eqb c' "}" then Some (JsObject [], r')
                else
                  match read_members fuel body with
                  | Some (props, rest) => Some (JsObject props, rest)
                  | None => None
                  end
            end
          else
            match read_number s with
            | Some (n, rest) => Some (JsNumber n, rest)
            | None => None
            end
      end
  end

with read_items (fuel : nat) (s : string) {struct fuel}
  : option (list JsValue * string) :=
  match fuel with
  | O => None
  | S fuel =>
      match read_value fuel s with
      | None => None
      | Some (v, rest) =>
          match skip_spaces rest with
          | EmptyString => None
          | String c r =>
              if Ascii.eqb c "]" then Some ([v], r)
              else if Ascii.eqb c "," then
                match read_items fuel (skip_spaces r) with
                | Some (vs, rest') => Some (v :: vs, rest')
                | None => None
                end
              else None
          end
      end
  end

with read_members (fuel : nat) (s : string) {struct fuel}
  : option (list (string * JsValue) * string) :=
  match fuel with
  | O => None
  | S fuel =>
      match s with
      | EmptyString => None
      | String q r =>
          if Ascii.eqb q JSON.DQUOTE then
            match read_string r with
            | None => None
            | Some (key, rest) =>
                match skip_spaces rest with
                | EmptyString => None
                | String colon r1 =>
                    if Ascii.eqb colon ":" then
                      match read_value fuel (skip_spaces r1) with
                      | None => None
                      | Some (v, rest1) =>
                          match skip_spaces rest1 with
                          | EmptyString => None
                          | String c r2 =>
                              if Ascii.eqb c "}" then Some ([(key, v)], r2)
                              else if Ascii.eqb c "," then
                                match read_members fuel (skip_spaces r2) with
                                | Some (ps, rest') => Some ((key, v) :: ps, rest')
                                | None => None
                                end
                              else None
                          end
                      end
                    else None
                end
            end
          else None
      end
  end.

(** [parse text]: the value of a JSON text that is nothing but one value
    between white space. No value has more nodes than its text has code
    units, which bounds the recursion. *)
Definition parse (text : string) : option JsValue :=
  match read_value (String.length text) (skip_spaces text) with
  | Some (v, rest) =>
      match skip_spaces rest with
      | EmptyString => Some v
      | String _ _ => None
      end
  | None => None
  end.

Definition kind_of_string (s : string) : option DocNodeKind :=
  if String.eqb s "import" then Some KindImport
  else if String.eqb s "function" then Some KindFunction
  else if String.eqb s "class" then Some KindClass
  else if String.eqb s "interface" then Some KindInterface
  else if String.eqb s "variable" then Some KindVariable
  else if String.eqb s "typeAlias" then Some KindTypeAlias
  else if String.eqb s "enum" then Some KindEnum
  else if String.eqb s "namespace" then Some KindNamespace
  else None.

(** The record of an object that starts with its [kind] and its [name]. *)
Definition DocNode_of_value (v : JsValue) : option DocNode :=
  match v with
  | JsObject ((k, JsStr kind_) :: (n, JsStr name_) :: rest) =>
      if String.eqb k "kind" && String.eqb n "name" then
        match kind_of_string kind_ with
        | Some kd =>
            Some {| kind := kd;
                    base := {| name := name_; payload := rest |} |}
        | None => None
        end
      else None
  | _ => None
  end.

(** The record read back from the text of a dump. *)
Definition read_DocNode (text : string) : option DocNode :=
  match parse text with
  | Some v => DocNode_of_value v
  | None => None
  end.

End Reader.

(** ** Measures and predicates of the proofs *)

(** The nodes of a value: a bound on the recursion depth of the reader. *)
Fixpoint size (v : JsValue) : nat :=
  match v with
  | JsArray items => S (fold_right (fun x n => S (size x + n)) 0 items)
  | JsObject props => S (fold_right (fun kv n => S (size (snd kv) + n)) 0 props)
  | _ => 1
  end.

Definition sizes (items : list JsValue) : nat :=
  fold_right (fun x n => S (size x + n)) 0 items.

Definition member_sizes (props : list (string * JsValue)) : nat :=
  fold_right (fun kv n => S (size (snd kv) + n)) 0 props.

(** Only spaces and line breaks. *)
Definition blank (s : string) : bool := JsString.forallb Reader.is_space s.

(** What follows does not go on with a digit. *)
Definition terminated (s : string) : bool :=
  match s with
  | EmptyString => true
  | String c _ => negb (Reader.is_digit c)
  end.

(** ** Reading pages and elements *)

(** [r.value] of an iterator result. *)
Definition value_of (r : IteratorResult) : option LumeDocument :=
  match r with
  | Yield page => Some page
  | Done => None
  end.

(** The page of the first [next()] of a generator. *)
Definition first_page (g : Generator) (st : Store) : option LumeDocument :=
  value_of (fst (fst (next g st))).

(** The navigation props of a [ReferencePage] element. *)
Definition navigation_of (e : Jsx) : option Navigation :=
  match e with
  | JsxReferencePage _ nav _ => Some nav
  | _ => None
  end.

(** The children of a [ReferencePage] element. *)
Definition children_of (e : Jsx) : list Jsx :=
  match e with
  | JsxReferencePage _ _ children => children
  | JsxIntrinsic _ children => children
  | _ => []
  end.

(** ** The records of the scenarios *)

(** [{ kind: "import", name: "Foo", packageName: "mypkg" }] *)
Definition Foo : DocNodeImport :=
  {| name := "Foo"; payload := [("packageName", JsStr "mypkg")] |}.

Definition named (n : string) : DocNodeImport :=
  {| name := n; payload := [] |}.

Definition ref_mypkg : ReferenceContext :=
  {| root := "/ref"; packageName := "mypkg"; others := [] |}.

Definition REF_mypkg : ReferenceContext :=
  {| root := "/REF"; packageName := "mypkg"; others := [] |}.

(** A store with the context [c] at every address. *)
Definition store_of (c : ReferenceContext) : Store :=
  {| contexts := fun _ => c |}.

(** ** Consumers of the generator and of the dump *)

(** [k] calls of [g.next()] by hand, with the pages they yield. *)
Fixpoint take_next (k : nat) (g : Generator)
  : M (list LumeDocument * Generator) :=
  match k with
  | O => ret ([], g)
  | S k =>
      r <- next g ;;
      rest <- take_next k (snd r) ;;
      ret (match fst r with
           | Yield page => page :: fst rest
           | Done => fst rest
           end, snd rest)
  end.


(** The text of the [pre] element that ends the children of an element. *)
Definition dump_of (e : Jsx) : option string :=
  match last (children_of e) (JsxText EmptyString) with
  | JsxIntrinsic tag [JsxText dump] =>
      if String.eqb tag "pre" then Some dump else None
  | _ => None
  end.

(** ** The host's default locale

    [toLocaleLowerCase()] without an argument lower-cases under the default
    locale of the host. The locales with a tailoring of their own are tr and
    az (Turkic) and lt (Lithuanian); every other locale lower-cases as
    [JsString.toLocaleLowerCase] does. A tailored result leaves the code
    units below U+0100, so the strings of a host are lists of UTF-16 code
    units. *)

Module Host.

Local Open Scope list_scope.

Inductive Locale : Type :=
| Untailored
| Turkic
| Lithuanian.

(** The UTF-16 code units of a string. *)
Fixpoint code_units (s : string) : list N :=
  match s with
  | EmptyString => []
  | String c r => N_of_ascii c :: code_units r
  end.

(** Lower case of one code unit below U+0100 under a locale, by
    SpecialCasing: under tr and az the capital I (U+0049) becomes the dotless
    i (U+0131); under lt the capitals I with grave (U+00CC) and with acute
    (U+00CD) become i, the combining dot above (U+0307) and the combining
    accent (U+0300, U+0301). *)
Definition lower_unit (l : Locale) (c : ascii) : list N :=
  let n := N_of_ascii c in
  match l with
  | Untailored => [N_of_ascii (JsString.lower_unit c)]
  | Turkic =>
      if (n =? 73)%N then [305%N]
      else [N_of_ascii (JsString.lower_unit c)]
  | Lithuanian =>
      if (n =? 204)%N then [105%N; 775%N; 768%N]
      else if (n =? 205)%N then [105%N; 775%N; 769%N]
      else [N_of_ascii (JsString.lower_unit c)]
  end.

(** [s.toLocaleLowerCase()] on a host of default locale [l]. *)
Fixpoint toLocaleLowerCase (l : Locale) (s : string) : list N :=
  match s with
  | EmptyString => []
  | String c r => lower_unit l c ++ toLocaleLowerCase l r
  end.


(** [LumeDocument] with the url as the host computes it. *)
Record LumeDocument : Type := {
  title : string;
  url : list N;
  content : Jsx
}.

Inductive IteratorResult : Type :=
| Yield (value : LumeDocument)
| Done.

(** [g.next()] on a host of default locale [l]. *)
Definition next (l : Locale) (g : Generator) : M (IteratorResult * Generator) :=
  match gen_state g with
  | SuspendedStart =>
      let item := gen_item g in
      let context := gen_context g in
      let title_ := name item in
      root_ <- get_root context ;;
      packageName_ <- get_packageName context ;;
      ret (Yield {| title := title_;
                    url := code_units root_ ++ code_units "/"
                           ++ toLocaleLowerCase l packageName_
                           ++ code_units "/"
                           ++ toLocaleLowerCase l (name item)
                           ++ code_units ".import";
                    content := JsxImport (as_DocNode item) context |},
           resume g SuspendedYield)
  | SuspendedYield => ret (Done, resume g Completed)
  | Completed => ret (Done, g)
  end.

(** [for (const page of g)] on that host. *)
Fixpoint iterate (l : Locale) (fuel : nat) (g : Generator)
  : M (option (list LumeDocument) * Generator) :=
  match fuel with
  | O => ret (None, g)
  | S fuel =>
      r <- next l g ;;
      match fst r with
      | Done => ret (Some [], snd r)
      | Yield page =>
          rest <- iterate l fuel (snd r) ;;
          ret (option_map (cons page) (fst rest), snd rest)
      end
  end.

End Host.

(** The page of an untailored host, from the page with its url as a
    [string]. *)
Definition host_page (p : LumeDocument) : Host.LumeDocument :=
  {| Host.title := title p;
     Host.url := Host.code_units (url p);
     Host.content := content p |}.


(** * Properties *)

(** Case analysis on the 256 code units. *)
Ltac each_code_unit c := destruct c as [[|] [|] [|] [|] [|] [|] [|] [|]].

(** ** Strings *)

Lemma append_assoc (a b c : string) : (a ++ b) ++ c = a ++ (b ++ c).
Proof. induction a as [|x a IH]; simpl; [reflexivity | now rewrite IH]. Qed.

Lemma append_nil_r (a : string) : a ++ "" = a.
Proof. induction a as [|x a IH]; simpl; [reflexivity | now rewrite IH]. Qed.

Lemma blank_append a b : blank a = true -> blank b = true -> blank (a ++ b) = true.
Proof.
  unfold blank. induction a as [|x a IH]; simpl; intros Ha Hb; [exact Hb|].
  apply andb_true_iff in Ha as [Hx Ha]. rewrite Hx. simpl. now apply IH.
Qed.

Lemma blank_spaces n : blank (JSON.spaces n) = true.
Proof. induction n; simpl; [reflexivity | exact IHn]. Qed.

Lemma skip_spaces_blank ws c r :
  blank ws = true -> Reader.is_space c = false ->
  Reader.skip_spaces (ws ++ String c r) = String c r.
Proof.
  unfold blank. induction ws as [|x ws IH]; simpl; intros Hws Hc.
  - now rewrite Hc.
  - apply andb_true_iff in Hws as [Hx Hws]. rewrite Hx. now apply IH.
Qed.

Lemma terminated_blank ws c r :
  blank ws = true -> Reader.is_digit c = false -> terminated (ws ++ String c r) = true.
Proof.
  destruct ws as [|x ws]; simpl; intros Hws Hc.
  - now rewrite Hc.
  - unfold blank in Hws. simpl in Hws. apply andb_true_iff in Hws as [Hx _].
    revert Hx. unfold Reader.is_space, Reader.is_digit.
    destruct (N_of_ascii x =? 32)%N eqn:E1; [apply N.eqb_eq in E1; rewrite E1; reflexivity|].
    destruct (N_of_ascii x =? 10)%N eqn:E2; [apply N.eqb_eq in E2; rewrite E2; reflexivity|].
    destruct (N_of_ascii x =? 13)%N eqn:E3; [apply N.eqb_eq in E3; rewrite E3; reflexivity|].
    destruct (N_of_ascii x =? 9)%N eqn:E4; [apply N.eqb_eq in E4; rewrite E4; reflexivity|].
    discriminate.
Qed.

(** ** Numbers *)
Lemma span_digits_uint d rest :
  terminated rest = true ->
  Reader.span_digits (NilEmpty.string_of_uint d ++ rest) = (NilEmpty.string_of_uint d, rest).
Proof.
  intros Hr. induction d; simpl; try (rewrite IHd; reflexivity).
  destruct rest as [|c r]; simpl; [reflexivity|].
  simpl in Hr. apply negb_true_iff in Hr. now rewrite Hr.
Qed.

Lemma span_digits_uint0 d rest :
  terminated rest = true ->
  Reader.span_digits (NilZero.string_of_uint d ++ rest) = (NilZero.string_of_uint d, rest).
Proof.
  intros Hr. destruct d; try apply (span_digits_uint _ _ Hr).
  simpl. destruct rest as [|c r]; simpl; [reflexivity|].
  simpl in Hr. apply negb_true_iff in Hr. now rewrite Hr.
Qed.

Lemma uint_head_digit d : d <> Nil ->
  exists c r, NilEmpty.string_of_uint d = String c r /\ Reader.is_digit c = true.
Proof. destruct d; intros H; try congruence; simpl; eexists _, _; split; reflexivity. Qed.

Lemma uint0_head_digit d :
  exists c r, NilZero.string_of_uint d = String c r /\ Reader.is_digit c = true.
Proof. destruct d; simpl; eexists _, _; split; reflexivity. Qed.

Lemma span_number_int d rest :
  terminated rest = true ->
  Reader.span_number (NilZero.string_of_int d ++ rest) = (NilZero.string_of_int d, rest).
Proof.
  intros Hr. destruct d as [d|d]; simpl.
  - destruct (uint0_head_digit d) as (c & r & E & Hc).
    pose proof (span_digits_uint0 d rest Hr) as H. rewrite E in *. simpl in *.
    replace (Ascii.eqb c "-") with false; [exact H|].
    symmetry. apply Ascii.eqb_neq. intros ->. discriminate.
  - now rewrite span_digits_uint0.
Qed.

Lemma to_int_proper z : Z.to_int z <> Pos Nil /\ Z.to_int z <> Neg Nil.
Proof.
  destruct z; simpl; split; try discriminate.
  - intros [= H]. revert H. apply DecimalPos.Unsigned.to_uint_nonnil.
  - intros [= H]. revert H. apply DecimalPos.Unsigned.to_uint_nonnil.
Qed.

Lemma read_number_NumberToString z rest :
  terminated rest = true ->
  Reader.read_number (JSON.NumberToString z ++ rest) = Some (z, rest).
Proof.
  intros Hr. unfold Reader.read_number, JSON.NumberToString.
  rewrite span_number_int by exact Hr.
  destruct (to_int_proper z) as [H1 H2].
  rewrite NilZero.isi by assumption. now rewrite DecimalZ.of_to.
Qed.

(** ** String literals *)

Lemma read_string_quote_unit c tail :
  Reader.read_string (JSON.quote_unit c ++ tail) = Reader.cons_unit c (Reader.read_string tail).
Proof.
  each_code_unit c; reflexivity.
Qed.

Lemma read_string_quote_units s rest :
  Reader.read_string (JSON.quote_units s ++ String JSON.DQUOTE rest) = Some (s, rest).
Proof.
  induction s as [|c s IH]; simpl.
  - reflexivity.
  - rewrite append_assoc, read_string_quote_unit, IH. reflexivity.
Qed.

Lemma read_string_QuoteJSONString s rest :
  exists body, JSON.QuoteJSONString s ++ rest = String JSON.DQUOTE body
               /\ Reader.read_string body = Some (s, rest).
Proof.
  unfold JSON.QuoteJSONString. simpl. eexists. split; [reflexivity|].
  rewrite append_assoc. simpl. apply read_string_quote_units.
Qed.

(** ** Values *)

(** Induction on a value, with the hypothesis on every item of an array and
    on every property of an object. *)
Lemma JsValue_ind (P : JsValue -> Prop) :
  P JsNull -> (forall b, P (JsBool b)) -> (forall n, P (JsNumber n)) ->
  (forall s, P (JsStr s)) ->
  (forall items, Forall P items -> P (JsArray items)) ->
  (forall props, Forall (fun kv => P (snd kv)) props -> P (JsObject props)) ->
  forall v, P v.
Proof.
  intros Hnull Hbool Hnum Hstr Harr Hobj.
  fix IH 1. intros [ | b | n | s | items | props ].
  - exact Hnull.
  - apply Hbool.
  - apply Hnum.
  - apply Hstr.
  - apply Harr.
    induction items as [|x xs IHxs]; constructor; [apply IH | exact IHxs].
  - apply Hobj.
    induction props as [|[k x] xs IHxs]; constructor; [apply IH | exact IHxs].
Qed.

(** The text of a non-empty array and of a non-empty object, with and without
    indentation: the items between brackets, separated by a comma, with blank
    text after the opening bracket and each comma and before the closing
    bracket. *)
Section Serialised.

Variables gap indent : string.

Let ser := JSON.SerializeJSONProperty gap (indent ++ gap).

Let member (kv : string * JsValue) : string :=
  JSON.QuoteJSONString (fst kv) ++ (if String.eqb gap "" then ":" else ": ")
    ++ ser (snd kv).

Hypothesis gap_blank : blank gap = true.
Hypothesis indent_blank : blank indent = true.

Lemma serialise_array x xs :
  exists ws1 ws2, blank ws1 = true /\ blank ws2 = true /\
    JSON.SerializeJSONProperty gap indent (JsArray (x :: xs))
    = "[" ++ ws1 ++ String.concat (String "," ws1) (map ser (x :: xs)) ++ ws2 ++ "]".
Proof.
  cbn [JSON.SerializeJSONProperty map]. fold ser.
  destruct (String.eqb gap "").
  - exists "", "". repeat split; reflexivity.
  - exists (JSON.LF ++ indent ++ gap), (JSON.LF ++ indent).
    split; [apply blank_append; [reflexivity | now apply blank_append]|].
    split; [now apply blank_append|].
    rewrite !append_assoc. reflexivity.
Qed.

Lemma serialise_object kv kvs :
  exists ws1 ws2, blank ws1 = true /\ blank ws2 = true /\
    JSON.SerializeJSONProperty gap indent (JsObject (kv :: kvs))
    = "{" ++ ws1 ++ String.concat (String "," ws1) (map member (kv :: kvs)) ++ ws2 ++ "}".
Proof.
  cbn [JSON.SerializeJSONProperty map]. fold ser. fold (member kv).
  change (map _ kvs) with (map member kvs).
  destruct (String.eqb gap "") eqn:E.
  - exists "", "". repeat split; reflexivity.
  - exists (JSON.LF ++ indent ++ gap), (JSON.LF ++ indent).
    split; [apply blank_append; [reflexivity | now apply blank_append]|].
    split; [now apply blank_append|].
    rewrite !append_assoc. reflexivity.
Qed.

End Serialised.

Lemma serialised_head gap indent v rest :
  exists c r, JSON.SerializeJSONProperty gap indent v ++ rest = String c r
    /\ Reader.is_space c = false /\ Ascii.eqb c "]" = false.
Proof.
  destruct v as [ | [|] | n | s | items | props ].
  - eexists _, _; repeat split; reflexivity.
  - eexists _, _; repeat split; reflexivity.
  - eexists _, _; repeat split; reflexivity.
  - unfold JSON.SerializeJSONProperty, JSON.NumberToString.
    destruct (Z.to_int n) as [d|d]; simpl.
    + destruct (uint0_head_digit d) as (c & r & E & Hc). rewrite E. simpl.
      exists c, (r ++ rest). split; [reflexivity|].
      revert Hc. each_code_unit c; intros Hc;
        try discriminate Hc; split; reflexivity.
    + eexists _, _; repeat split; reflexivity.
  - eexists _, _; repeat split; reflexivity.
  - destruct items as [|x xs].
    + eexists _, _; repeat split; reflexivity.
    + cbn [JSON.SerializeJSONProperty map]. destruct (String.eqb gap "");
        eexists _, _; repeat split; reflexivity.
  - destruct props as [|x xs].
    + eexists _, _; repeat split; reflexivity.
    + cbn [JSON.SerializeJSONProperty map]. destruct (String.eqb gap "");
        eexists _, _; repeat split; reflexivity.
Qed.

Lemma concat_head sep x xs tail :
  exists more, String.concat sep (x :: xs) ++ tail = x ++ more.
Proof.
  destruct xs as [|y ys]; simpl.
  - now exists tail.
  - exists (sep ++ String.concat sep (y :: ys) ++ tail). now rewrite !append_assoc.
Qed.

Lemma read_value_number fuel c r :
  Ascii.eqb c "-" || Reader.is_digit c = true ->
  Reader.read_value (S fuel) (String c r)
  = match Reader.read_number (String c r) with
    | Some (n, rest) => Some (JsNumber n, rest)
    | None => None
    end.
Proof.
  each_code_unit c; intros H; try discriminate H; reflexivity.
Qed.

Lemma NumberToString_head z rest :
  exists c r, JSON.NumberToString z ++ rest = String c r
    /\ Ascii.eqb c "-" || Reader.is_digit c = true.
Proof.
  unfold JSON.NumberToString. destruct (Z.to_int z) as [d|d]; simpl.
  - destruct (uint0_head_digit d) as (c & r & E & Hc). rewrite E. simpl.
    exists c, (r ++ rest). split; [reflexivity|]. rewrite Hc. apply orb_true_r.
  - eexists _, _. split; reflexivity.
Qed.

Lemma read_items_S fuel s :
  Reader.read_items (S fuel) s
  = match Reader.read_value fuel s with
    | None => None
    | Some (v, rest) =>
        match Reader.skip_spaces rest with
        | EmptyString => None
        | String c r =>
            if Ascii.eqb c "]" then Some ([v], r)
            else if Ascii.eqb c "," then
              match Reader.read_items fuel (Reader.skip_spaces r) with
              | Some (vs, rest') => Some (v :: vs, rest')
              | None => None
              end
            else None
        end
    end.
Proof. reflexivity. Qed.

Lemma read_members_S fuel q r :
  Reader.read_members (S fuel) (String q r)
  = if Ascii.eqb q JSON.DQUOTE then
      match Reader.read_string r with
      | None => None
      | Some (key, rest) =>
          match Reader.skip_spaces rest with
          | EmptyString => None
          | String colon r1 =>
              if Ascii.eqb colon ":" then
                match Reader.read_value fuel (Reader.skip_spaces r1) with
                | None => None
                | Some (v, rest1) =>
                    match Reader.skip_spaces rest1 with
                    | EmptyString => None
                    | String c r2 =>
                        if Ascii.eqb c "}" then Some ([(key, v)], r2)
                        else if Ascii.eqb c "," then
                          match Reader.read_members fuel (Reader.skip_spaces r2) with
                          | Some (ps, rest') => Some ((key, v) :: ps, rest')
                          | None => None
                          end
                        else None
                    end
                end
              else None
          end
      end
    else None.
Proof. reflexivity. Qed.

Lemma read_value_array fuel r c' r' :
  Reader.skip_spaces r = String c' r' -> Ascii.eqb c' "]" = false ->
  Reader.read_value (S fuel) (String "[" r)
  = match Reader.read_items fuel (String c' r') with
    | Some (items, rest) => Some (JsArray items, rest)
    | None => None
    end.
Proof. intros E H. cbn -[Reader.read_items Reader.skip_spaces]. rewrite E, H. reflexivity. Qed.

Lemma read_value_object fuel r c' r' :
  Reader.skip_spaces r = String c' r' -> Ascii.eqb c' "}" = false ->
  Reader.read_value (S fuel) (String "{" r)
  = match Reader.read_members fuel (String c' r') with
    | Some (props, rest) => Some (JsObject props, rest)
    | None => None
    end.
Proof. intros E H. cbn -[Reader.read_members Reader.skip_spaces]. rewrite E, H. reflexivity. Qed.

Section Sequences.

Variable ser : JsValue -> string.

(** What the reader does on one serialised value. *)
Let reads (v : JsValue) : Prop :=
  forall fuel rest, size v <= fuel -> terminated rest = true ->
    Reader.read_value fuel (ser v ++ rest) = Some (v, rest).

Hypothesis ser_head : forall v rest,
  exists c r, ser v ++ rest = String c r
    /\ Reader.is_space c = false /\ Ascii.eqb c "]" = false.

Lemma skip_to_value ws v rest :
  blank ws = true -> Reader.skip_spaces (ws ++ ser v ++ rest) = ser v ++ rest.
Proof.
  intros Hws. destruct (ser_head v rest) as (c & r & E & Hc & _).
  rewrite E. now apply skip_spaces_blank.
Qed.

Lemma skip_to_values ws sep v vs rest :
  blank ws = true ->
  Reader.skip_spaces (ws ++ String.concat sep (map ser (v :: vs)) ++ rest)
  = String.concat sep (map ser (v :: vs)) ++ rest.
Proof.
  intros Hws. cbn [map].
  destruct (concat_head sep (ser v) (map ser vs) rest) as (more & E).
  rewrite E. now apply skip_to_value.
Qed.

Lemma read_items_concat xs : forall x fuel ws1 ws2 rest,
  Forall reads (x :: xs) ->
  blank ws1 = true -> blank ws2 = true -> sizes (x :: xs) <= fuel ->
  Reader.read_items fuel
    (String.concat (String "," ws1) (map ser (x :: xs)) ++ ws2 ++ String "]" rest)
  = Some (x :: xs, rest).
Proof.
  induction xs as [|y ys IH]; intros x fuel ws1 ws2 rest Hall H1 H2 Hfuel;
    inversion Hall as [|? ? Hx Hrest]; subst;
    destruct fuel as [|fuel]; cbn [sizes fold_right] in Hfuel; try lia;
    rewrite read_items_S.
  - cbn [map String.concat].
    rewrite (Hx fuel) by (try lia; now apply terminated_blank).
    rewrite skip_spaces_blank by (assumption || reflexivity).
    reflexivity.
  - change (String.concat (String "," ws1) (map ser (x :: y :: ys)))
      with (ser x ++ String "," ws1 ++ String.concat (String "," ws1) (map ser (y :: ys))).
    rewrite !append_assoc.
    rewrite (Hx fuel) by (fold sizes in Hfuel; try lia; reflexivity).
    cbn [Reader.skip_spaces String.append Reader.is_space].
    change (Reader.is_space ",") with false. cbv iota.
    change (Ascii.eqb "," "]") with false. change (Ascii.eqb "," ",") with true.
    cbv iota.
    rewrite skip_to_values by assumption.
    rewrite IH; [reflexivity | assumption | assumption | assumption |].
    fold sizes in Hfuel. cbn [sizes fold_right] in *. lia.
Qed.

Variable colon_ws : string.

Hypothesis colon_ws_blank : blank colon_ws = true.

Let member (kv : string * JsValue) : string :=
  JSON.QuoteJSONString (fst kv) ++ String ":" (colon_ws ++ ser (snd kv)).

Lemma skip_to_members ws sep kv kvs rest :
  blank ws = true ->
  Reader.skip_spaces (ws ++ String.concat sep (map member (kv :: kvs)) ++ rest)
  = String.concat sep (map member (kv :: kvs)) ++ rest.
Proof.
  intros Hws. cbn [map].
  destruct (concat_head sep (member kv) (map member kvs) rest) as (more & E).
  rewrite E. unfold member, JSON.QuoteJSONString.
  cbn [String.append]. now apply skip_spaces_blank.
Qed.

Lemma read_member k v fuel tail :
  reads v -> size v <= fuel -> terminated tail = true ->
  exists body, member (k, v) ++ tail = String JSON.DQUOTE body
    /\ Reader.read_string body = Some (k, String ":" (colon_ws ++ ser v ++ tail))
    /\ Reader.read_value fuel (Reader.skip_spaces (colon_ws ++ ser v ++ tail))
       = Some (v, tail).
Proof.
  intros Hv Hfuel Htail. unfold member. cbn [fst snd].
  rewrite append_assoc.
  destruct (read_string_QuoteJSONString k (String ":" (colon_ws ++ ser v) ++ tail))
    as (body & E & Hbody).
  exists body. split; [exact E|]. cbn [String.append] in Hbody.
  rewrite append_assoc in Hbody. split; [exact Hbody|].
  rewrite skip_to_value by exact colon_ws_blank. now apply Hv.
Qed.

Lemma read_members_concat kvs : forall kv fuel ws1 ws2 rest,
  Forall (fun kv => reads (snd kv)) (kv :: kvs) ->
  blank ws1 = true -> blank ws2 = true -> member_sizes (kv :: kvs) <= fuel ->
  Reader.read_members fuel
    (String.concat (String "," ws1) (map member (kv :: kvs)) ++ ws2 ++ String "}" rest)
  = Some (kv :: kvs, rest).
Proof.
  induction kvs as [|y ys IH]; intros [k v] fuel ws1 ws2 rest Hall H1 H2 Hfuel;
    inversion Hall as [|? ? Hv Hrest]; subst; cbn [snd] in Hv;
    destruct fuel as [|fuel]; cbn [member_sizes fold_right snd] in Hfuel; try lia.
  - cbn [map String.concat].
    destruct (read_member k v fuel (ws2 ++ String "}" rest) Hv) as (body & E & Hk & Hval);
      [lia | now apply terminated_blank |].
    rewrite E, read_members_S. change (Ascii.eqb JSON.DQUOTE JSON.DQUOTE) with true.
    cbv iota. rewrite Hk. cbn [Reader.skip_spaces].
    change (Reader.is_space ":") with false. cbv iota.
    change (Ascii.eqb ":" ":") with true. cbv iota.
    rewrite Hval. rewrite skip_spaces_blank by (assumption || reflexivity).
    reflexivity.
  - change (String.concat (String "," ws1) (map member ((k, v) :: y :: ys)))
      with (member (k, v) ++ String "," ws1
              ++ String.concat (String "," ws1) (map member (y :: ys))).
    rewrite !append_assoc.
    match goal with |- context [member (k, v) ++ ?t] =>
      destruct (read_member k v fuel t Hv) as (body & E & Hk & Hval);
        [fold member_sizes in Hfuel; lia | reflexivity |]
    end.
    rewrite E, read_members_S. change (Ascii.eqb JSON.DQUOTE JSON.DQUOTE) with true.
    cbv iota. rewrite Hk. cbn [Reader.skip_spaces].
    change (Reader.is_space ":") with false. cbv iota.
    change (Ascii.eqb ":" ":") with true. cbv iota.
    rewrite Hval.
    cbn [Reader.skip_spaces String.append].
    change (Reader.is_space ",") with false. cbv iota.
    change (Ascii.eqb "," "}") with false. change (Ascii.eqb "," ",") with true.
    cbv iota.
    rewrite skip_to_members by assumption.
    rewrite IH; [reflexivity | assumption | assumption | assumption |].
    fold member_sizes in Hfuel. cbn [member_sizes fold_right] in *. lia.
Qed.

End Sequences.

Lemma read_value_string fuel body :
  Reader.read_value (S fuel) (String JSON.DQUOTE body)
  = match Reader.read_string body with
    | Some (str, rest) => Some (JsStr str, rest)
    | None => None
    end.
Proof. reflexivity. Qed.

Lemma values_head gap indent sep x xs tail :
  exists c r,
    String.concat sep (map (JSON.SerializeJSONProperty gap indent) (x :: xs)) ++ tail
    = String c r /\ Ascii.eqb c "]" = false.
Proof.
  cbn [map].
  destruct (concat_head sep (JSON.SerializeJSONProperty gap indent x)
              (map (JSON.SerializeJSONProperty gap indent) xs) tail) as (more & E).
  destruct (serialised_head gap indent x more) as (c & r & E' & _ & Hc).
  exists c, r. now rewrite E, E'.
Qed.

Lemma colon_blank gap :
  exists ws, blank ws = true
    /\ (if String.eqb gap "" then ":" else ": ") = String ":" ws.
Proof. destruct (String.eqb gap ""); [exists "" | exists " "]; split; reflexivity. Qed.

(** The reader gives back every value that [SerializeJSONProperty] wrote,
    and what followed it in the text. *)
Lemma read_value_serialised v : forall gap indent fuel rest,
  blank gap = true -> blank indent = true ->
  size v <= fuel -> terminated rest = true ->
  Reader.read_value fuel (JSON.SerializeJSONProperty gap indent v ++ rest)
  = Some (v, rest).
Proof.
  induction v as [ | b | n | s | items IH | props IH ] using JsValue_ind;
    intros gap indent fuel rest Hgap Hindent Hfuel Hrest;
    (destruct fuel as [|fuel]; [cbn in Hfuel; lia|]).
  - reflexivity.
  - destruct b; reflexivity.
  - cbn [JSON.SerializeJSONProperty].
    destruct (NumberToString_head n rest) as (c & r & E & Hc).
    rewrite E, read_value_number by exact Hc.
    rewrite <- E, read_number_NumberToString by exact Hrest. reflexivity.
  - cbn [JSON.SerializeJSONProperty].
    destruct (read_string_QuoteJSONString s rest) as (body & E & Hbody).
    now rewrite E, read_value_string, Hbody.
  - destruct items as [|x xs]; [reflexivity|].
    destruct (serialise_array gap indent Hgap Hindent x xs)
      as (ws1 & ws2 & H1 & H2 & E).
    rewrite E. clear E. cbn [String.append]. rewrite !append_assoc.
    cbn [String.append].
    set (ser := JSON.SerializeJSONProperty gap (indent ++ gap)).
    destruct (values_head gap (indent ++ gap) (String "," ws1) x xs
                (ws2 ++ String "]" rest)) as (c & r & E & Hc).
    fold ser in E.
    rewrite (read_value_array fuel _ c r).
    + rewrite <- E.
      rewrite (read_items_concat ser); try assumption; try reflexivity.
      * intros v tail. apply serialised_head.
      * eapply Forall_impl; [|exact IH]. intros v Hv f t. apply Hv.
        -- exact Hgap.
        -- now apply blank_append.
      * cbn [size] in Hfuel. fold (sizes (x :: xs)) in Hfuel. lia.
    + rewrite <- E. apply (skip_to_values ser); [|exact H1].
      intros v tail. apply serialised_head.
    + exact Hc.
  - destruct props as [|kv kvs]; [reflexivity|].
    destruct (serialise_object gap indent Hgap Hindent kv kvs)
      as (ws1 & ws2 & H1 & H2 & E).
    rewrite E. clear E. cbn [String.append]. rewrite !append_assoc.
    cbn [String.append].
    destruct (colon_blank gap) as (cws & Hcws & ->).
    set (ser := JSON.SerializeJSONProperty gap (indent ++ gap)).
    pose (member := fun kv0 : string * JsValue =>
           JSON.QuoteJSONString (fst kv0) ++ String ":" (cws ++ ser (snd kv0))).
    change (map _ (kv :: kvs)) with (map member (kv :: kvs)).
    assert (Hskip : Reader.skip_spaces
               (ws1 ++ String.concat (String "," ws1) (map member (kv :: kvs))
                    ++ ws2 ++ String "}" rest)
             = String.concat (String "," ws1) (map member (kv :: kvs))
                 ++ ws2 ++ String "}" rest).
    { apply (skip_to_members ser cws). exact H1. }
    assert (Hhead : exists r,
               String.concat (String "," ws1) (map member (kv :: kvs))
                 ++ ws2 ++ String "}" rest = String JSON.DQUOTE r).
    { cbn [map].
      destruct (concat_head (String "," ws1) (member kv) (map member kvs)
                  (ws2 ++ String "}" rest)) as (more & E).
      rewrite E. unfold member at 1. unfold JSON.QuoteJSONString.
      cbn [String.append]. eexists. reflexivity. }
    destruct Hhead as (r & E).
    rewrite (read_value_object fuel _ JSON.DQUOTE r);
      [| now rewrite Hskip | reflexivity].
    rewrite <- E. unfold member.
    rewrite (read_members_concat ser (serialised_head gap (indent ++ gap)) cws);
      try assumption; try reflexivity.
    + eapply Forall_impl; [|exact IH]. intros p Hv f t. apply Hv.
      * exact Hgap.
      * now apply blank_append.
    + cbn [size] in Hfuel. fold (member_sizes (kv :: kvs)) in Hfuel. lia.
Qed.

Lemma length_append a b : String.length (a ++ b) = String.length a + String.length b.
Proof. induction a as [|x a IH]; simpl; [reflexivity | now rewrite IH]. Qed.

Lemma length_concat {A} (f : A -> string) (g : A -> nat) sep l :
  Forall (fun a => g a <= String.length (f a)) l -> 1 <= String.length sep ->
  fold_right (fun a n => S (g a + n)) 0 l
  <= String.length (String.concat sep (map f l)) + 1.
Proof.
  intros Hall Hsep. induction Hall as [|a l Ha Hl IH]; [cbn; lia|].
  destruct l as [|b l].
  - cbn in *. lia.
  - change (String.concat sep (map f (a :: b :: l)))
      with (f a ++ sep ++ String.concat sep (map f (b :: l))).
    rewrite !length_append. cbn [fold_right] in *. lia.
Qed.

Lemma size_le_length v : forall gap indent,
  blank gap = true -> blank indent = true ->
  size v <= String.length (JSON.SerializeJSONProperty gap indent v).
Proof.
  induction v as [ | b | n | s | items IH | props IH ] using JsValue_ind;
    intros gap indent Hgap Hindent.
  - cbn. lia.
  - destruct b; cbn; lia.
  - cbn [JSON.SerializeJSONProperty size].
    destruct (NumberToString_head n "") as (c & r & E & _).
    rewrite append_nil_r in E. rewrite E. cbn. lia.
  - cbn. lia.
  - destruct items as [|x xs]; [cbn; lia|].
    destruct (serialise_array gap indent Hgap Hindent x xs) as (ws1 & ws2 & _ & _ & E).
    rewrite E. cbn [size]. rewrite !length_append. cbn [String.length].
    pose proof (length_concat (JSON.SerializeJSONProperty gap (indent ++ gap)) size
                  (String "," ws1) (x :: xs)) as H.
    cbn [String.length] in H.
    assert (Hall : Forall (fun a => size a
               <= String.length (JSON.SerializeJSONProperty gap (indent ++ gap) a))
              (x :: xs)).
    { eapply Forall_impl; [|exact IH]. intros a Ha. apply Ha; [exact Hgap|].
      now apply blank_append. }
    specialize (H Hall). lia.
  - destruct props as [|kv kvs]; [cbn; lia|].
    destruct (serialise_object gap indent Hgap Hindent kv kvs) as (ws1 & ws2 & _ & _ & E).
    rewrite E. cbn [size]. rewrite !length_append. cbn [String.length].
    match goal with |- context [map ?f (kv :: kvs)] =>
      pose proof (length_concat f (fun p => size (snd p)) (String "," ws1) (kv :: kvs)) as H
    end.
    cbn [String.length] in H. cbv beta in H.
    match type of H with ?A -> _ => assert (Hall : A) end.
    { eapply Forall_impl; [|exact IH]. intros a Ha. cbv beta in *.
      rewrite !length_append.
      specialize (Ha gap (indent ++ gap) Hgap (blank_append _ _ Hindent Hgap)). lia. }
    specialize (H Hall). lia.
Qed.

(** [Reader.parse] gives back the value that [JSON.stringify] wrote, at every
    indentation. *)
Lemma parse_stringify v space : Reader.parse (JSON.stringify v space) = Some v.
Proof.
  unfold Reader.parse, JSON.stringify.
  set (gap := JSON.spaces (Nat.min 10 space)).
  assert (Hgap : blank gap = true) by apply blank_spaces.
  destruct (serialised_head gap "" v "") as (c & r & E & Hc & _).
  rewrite append_nil_r in E.
  assert (Hskip : Reader.skip_spaces (JSON.SerializeJSONProperty gap "" v)
                  = JSON.SerializeJSONProperty gap "" v).
  { rewrite E. cbn [Reader.skip_spaces]. now rewrite Hc. }
  rewrite Hskip.
  rewrite <- (append_nil_r (JSON.SerializeJSONProperty gap "" v)) at 2.
  rewrite read_value_serialised; try reflexivity; try assumption.
  now apply size_le_length.
Qed.

Lemma kind_of_string_kind_string k : Reader.kind_of_string (kind_string k) = Some k.
Proof. destruct k; reflexivity. Qed.

Lemma DocNode_of_value_DocNode_value d : Reader.DocNode_of_value (DocNode_value d) = Some d.
Proof.
  destruct d as [k [n p]]. cbn. rewrite kind_of_string_kind_string. reflexivity.
Qed.

Lemma read_DocNode_stringify d space :
  Reader.read_DocNode (JSON.stringify (DocNode_value d) space) = Some d.
Proof.
  unfold Reader.read_DocNode. rewrite parse_stringify.
  apply DocNode_of_value_DocNode_value.
Qed.

(** ** The store is only read *)

Lemma next_frame g st : snd (next g st) = st.
Proof. unfold next. destruct (gen_state g); reflexivity. Qed.

Lemma iterate_frame fuel : forall g st, snd (iterate fuel g st) = st.
Proof.
  induction fuel as [|fuel IH]; intros g st; [reflexivity|].
  cbn [iterate]. unfold bind.
  pose proof (next_frame g st) as Hn.
  destruct (next g st) as [[r g'] st1]. cbn [fst snd] in *. subst st1.
  destruct r as [page|]; [|reflexivity].
  pose proof (IH g' st) as Hi.
  destruct (iterate fuel g' st) as [rest st2]. cbn [snd] in Hi. now subst st2.
Qed.

Lemma Import_frame props st : snd (Import props st) = st.
Proof. reflexivity. Qed.

Lemma call_component_frame e st : snd (call_component e st) = st.
Proof. destruct e; reflexivity. Qed.

(** ** What a resumption depends on *)

Lemma next_agree g st st' :
  contexts st (gen_context g) = contexts st' (gen_context g) ->
  fst (next g st) = fst (next g st').
Proof.
  intros H. unfold next. destruct (gen_state g); try reflexivity.
  unfold bind, get_root, get_packageName, ret. cbn [fst]. now rewrite H.
Qed.

Lemma next_context g st : gen_context (snd (fst (next g st))) = gen_context g.
Proof. unfold next. destruct (gen_state g); reflexivity. Qed.

Lemma iterate_agree fuel : forall g st st',
  contexts st (gen_context g) = contexts st' (gen_context g) ->
  fst (iterate fuel g st) = fst (iterate fuel g st').
Proof.
  induction fuel as [|fuel IH]; intros g st st' H; [reflexivity|].
  cbn [iterate]. unfold bind.
  pose proof (next_agree g st st' H) as Hn.
  pose proof (next_frame g st) as Hs. pose proof (next_frame g st') as Hs'.
  pose proof (next_context g st) as Hc.
  destruct (next g st) as [[r g1] st1]. destruct (next g st') as [[r' g1'] st1'].
  cbn [fst snd] in *. injection Hn as <- <-. subst st1 st1'.
  destruct r as [page|]; [|reflexivity].
  rewrite <- Hc in H. specialize (IH g1 st st' H).
  destruct (iterate fuel g1 st) as [rest st2].
  destruct (iterate fuel g1 st') as [rest' st2']. cbn [fst snd] in *.
  now subst rest'.
Qed.

(** The page of the object literal of [getPages]. *)
Lemma next_getPages item ctx st :
  next (getPages item ctx) st
  = (Yield {| title := name item;
              url := root (contexts st ctx) ++ "/"
                     ++ JsString.toLocaleLowerCase (packageName (contexts st ctx))
                     ++ "/" ++ JsString.toLocaleLowerCase (name item) ++ ".import";
              content := JsxImport (as_DocNode item) ctx |},
     resume (getPages item ctx) SuspendedYield, st).
Proof. reflexivity. Qed.

Lemma iterate_getPages fuel item ctx st :
  2 <= fuel ->
  iterate fuel (getPages item ctx) st
  = (Some [ {| title := name item;
               url := root (contexts st ctx) ++ "/"
                      ++ JsString.toLocaleLowerCase (packageName (contexts st ctx))
                      ++ "/" ++ JsString.toLocaleLowerCase (name item) ++ ".import";
               content := JsxImport (as_DocNode item) ctx |} ],
     resume (getPages item ctx) Completed, st).
Proof.
  intros H. destruct fuel as [|[|fuel]]; try lia. reflexivity.
Qed.

Lemma iterate_completed fuel g st :
  1 <= fuel -> gen_state g = Completed -> iterate fuel g st = (Some [], g, st).
Proof.
  intros H Hg. destruct fuel as [|fuel]; try lia.
  cbn [iterate]. unfold bind, next. rewrite Hg. reflexivity.
Qed.

(** ** Lower case, white space and prefixes *)

Lemma forallb_append p a b :
  JsString.forallb p (a ++ b) = JsString.forallb p a && JsString.forallb p b.
Proof.
  induction a as [|x a IH]; cbn; [reflexivity|]. now rewrite IH, andb_assoc.
Qed.

Lemma lower_unit_not_upper c : JsString.is_upper (JsString.lower_unit c) = false.
Proof. each_code_unit c; reflexivity. Qed.

Lemma lower_unit_white_space c :
  JsString.is_white_space (JsString.lower_unit c) = JsString.is_white_space c.
Proof. each_code_unit c; reflexivity. Qed.

Lemma is_lowercase_toLocaleLowerCase s :
  JsString.is_lowercase (JsString.toLocaleLowerCase s) = true.
Proof.
  unfold JsString.is_lowercase. induction s as [|c s IH]; cbn; [reflexivity|].
  now rewrite lower_unit_not_upper, IH.
Qed.

Lemma no_white_space_toLocaleLowerCase s :
  JsString.no_white_space (JsString.toLocaleLowerCase s) = JsString.no_white_space s.
Proof.
  unfold JsString.no_white_space. induction s as [|c s IH]; cbn; [reflexivity|].
  now rewrite lower_unit_white_space, IH.
Qed.

Lemma startsWith_append a b : JsString.startsWith (a ++ b) a = true.
Proof.
  unfold JsString.startsWith. induction a as [|x a IH]; cbn;
    [now destruct b|].
  destruct (ascii_dec x x) as [_|N]; [exact IH | now destruct N].
Qed.

Lemma append_inj_l a b c : a ++ b = a ++ c -> b = c.
Proof. induction a as [|x a IH]; cbn; intros H; [exact H|]. injection H as H. auto. Qed.

Lemma is_lowercase_url_tail pkg nm :
  JsString.is_lowercase
    ("/" ++ JsString.toLocaleLowerCase pkg ++ "/"
         ++ JsString.toLocaleLowerCase nm ++ ".import") = true.
Proof.
  unfold JsString.is_lowercase. rewrite !forallb_append.
  fold (JsString.is_lowercase (JsString.toLocaleLowerCase pkg)).
  fold (JsString.is_lowercase (JsString.toLocaleLowerCase nm)).
  rewrite !is_lowercase_toLocaleLowerCase. reflexivity.
Qed.

Lemma no_white_space_url_tail pkg nm :
  JsString.no_white_space pkg = true -> JsString.no_white_space nm = true ->
  JsString.no_white_space
    ("/" ++ JsString.toLocaleLowerCase pkg ++ "/"
         ++ JsString.toLocaleLowerCase nm ++ ".import") = true.
Proof.
  intros Hp Hn. unfold JsString.no_white_space. rewrite !forallb_append.
  fold (JsString.no_white_space (JsString.toLocaleLowerCase pkg)).
  fold (JsString.no_white_space (JsString.toLocaleLowerCase nm)).
  rewrite !no_white_space_toLocaleLowerCase, Hp, Hn. reflexivity.
Qed.

(** * The claims *)

(** C1: for every import Symbol Record and Reference Context, [getPages]
    yields an Emitted Page whose url is
    [{root}/{packageName lowercased}/{name lowercased}.import] and whose title
    is the record's name; the record [{ kind: "import", name: "Foo",
    packageName: "mypkg" }] under the root [/ref] of package [mypkg] gives the
    page titled [Foo] at [/ref/mypkg/foo.import]. *)
Theorem getPages_title_and_url :
  (forall (item : DocNodeImport) (ctx : Ref) (st : Store),
     exists page,
       first_page (getPages item ctx) st = Some page
       /\ title page = name item
       /\ url page
          = root (contexts st ctx) ++ "/"
            ++ JsString.toLocaleLowerCase (packageName (contexts st ctx)) ++ "/"
            ++ JsString.toLocaleLowerCase (name item) ++ ".import")
  /\ fst (fst (iterate 2 (getPages Foo 0) (store_of ref_mypkg)))
     = Some [ {| title := "Foo";
                 url := "/ref/mypkg/foo.import";
                 content := JsxImport (as_DocNode Foo) 0 |} ].
Proof.
  split; [|reflexivity].
  intros item ctx st. unfold first_page. rewrite next_getPages.
  eexists. repeat split.
Qed.

(** ** The pages of a host *)

Lemma Host_code_units_append a b :
  Host.code_units (a ++ b) = (Host.code_units a ++ Host.code_units b)%list.
Proof. induction a as [|x a IH]; cbn; [reflexivity | now rewrite IH]. Qed.

(** The lower-casing without a locale is the one of the untailored hosts. *)
Lemma Host_toLocaleLowerCase_Untailored s :
  Host.toLocaleLowerCase Host.Untailored s
  = Host.code_units (JsString.toLocaleLowerCase s).
Proof. induction s as [|c s IH]; cbn; [reflexivity | now rewrite IH]. Qed.

(** On an untailored host [next] yields the page of the model without a
    locale. *)
Lemma Host_next_Untailored g st :
  Host.next Host.Untailored g st
  = (match fst (fst (next g st)) with
     | Yield page => Host.Yield (host_page page)
     | Done => Host.Done
     end, snd (fst (next g st)), snd (next g st)).
Proof.
  unfold Host.next, next. destruct (gen_state g); try reflexivity.
  unfold bind, get_root, get_packageName, ret, host_page.
  cbn [fst snd title url content].
  rewrite !Host_toLocaleLowerCase_Untailored.
  rewrite !Host_code_units_append. reflexivity.
Qed.






(** C3: the navigation passed to the page layout has [currentItemName] equal
    to the record's name and [category] equal to the context's packageName,
    for [Import] on any record and for the content of the page of
    [getPages]. *)
Theorem Import_navigation :
  (forall (d : DocNode) (ctx : Ref) (st : Store),
     navigation_of (fst (Import {| data := d; context := ctx |} st))
     = Some {| category := packageName (contexts st ctx);
               currentItemName := name d |})
  /\ (forall (item : DocNodeImport) (ctx : Ref) (st : Store),
        exists page,
          first_page (getPages item ctx) st = Some page
          /\ navigation_of (fst (call_component (content page) st))
             = Some {| category := packageName (contexts st ctx);
                       currentItemName := name item |}).
Proof.
  split.
  - reflexivity.
  - intros item ctx st. unfold first_page. rewrite next_getPages.
    eexists. split; reflexivity.
Qed.


(** C5, as stated, fails: under the root [/REF] the record named [My Import]
    gets the url [/REF/mypkg/my import.import], which has upper-case letters
    and a space. *)
Lemma url_well_formed_counterexample :
  ~ (forall (item : DocNodeImport) (ctx : Ref) (st : Store) (page : LumeDocument),
       first_page (getPages item ctx) st = Some page ->
       JsString.is_lowercase (url page) = true
       /\ JsString.startsWith (url page) (root (contexts st ctx)) = true
       /\ JsString.no_white_space (url page) = true).
Proof.
  intros H.
  destruct (H (named "My Import") 0 (store_of REF_mypkg) _ eq_refl) as (Hl & _ & _).
  discriminate Hl.
Qed.

(** C5, amended: the derived url begins with the context's root and all that
    follows the root is lower case; the url is entirely lower case when the
    root is, and it has no white space when the root, the packageName and the
    name have none. *)
Theorem url_well_formed
    (item : DocNodeImport) (ctx : Ref) (st : Store) :
  exists page tail,
    first_page (getPages item ctx) st = Some page
    /\ url page = root (contexts st ctx) ++ tail
    /\ JsString.startsWith (url page) (root (contexts st ctx)) = true
    /\ JsString.is_lowercase tail = true
    /\ (JsString.is_lowercase (root (contexts st ctx)) = true ->
        JsString.is_lowercase (url page) = true)
    /\ (JsString.no_white_space (root (contexts st ctx)) = true ->
        JsString.no_white_space (packageName (contexts st ctx)) = true ->
        JsString.no_white_space (name item) = true ->
        JsString.no_white_space (url page) = true).
Proof.
  unfold first_page. rewrite next_getPages. cbn [fst value_of url].
  eexists. eexists. split; [reflexivity|]. split; [reflexivity|].
  cbn [url].
  split; [apply startsWith_append|].
  split; [apply is_lowercase_url_tail|]. split.
  - intros Hr. unfold JsString.is_lowercase. rewrite forallb_append.
    fold (JsString.is_lowercase (root (contexts st ctx))). rewrite Hr.
    apply is_lowercase_url_tail.
  - intros Hr Hp Hn. unfold JsString.no_white_space. rewrite forallb_append.
    fold (JsString.no_white_space (root (contexts st ctx))). rewrite Hr.
    now apply no_white_space_url_tail.
Qed.

Lemma url_well_formed_witness :
  exists page,
    first_page (getPages Foo 0) (store_of ref_mypkg) = Some page
    /\ url page = "/ref/mypkg/foo.import"
    /\ JsString.startsWith (url page) "/ref" = true
    /\ JsString.is_lowercase (url page) = true
    /\ JsString.no_white_space (url page) = true.
Proof.
  destruct (url_well_formed Foo 0 (store_of ref_mypkg))
    as (page & tail & Hp & Hu & Hs & _ & Hl & Hw).
  exists page. split; [exact Hp|].
  split; [injection Hp as <-; reflexivity|].
  split; [exact Hs|].
  split; [apply Hl; reflexivity | apply Hw; reflexivity].
Defined.

(** C7, as stated, fails: the sequence of [getPages] is a generator, and a
    generator that was iterated to its end yields nothing when it is iterated
    again. *)
Lemma getPages_restartable_counterexample :
  ~ (forall (item : DocNodeImport) (ctx : Ref) (st : Store) (fuel : nat),
       2 <= fuel ->
       exists page,
         fst (fst (iterate fuel (getPages item ctx) st)) = Some [page]
         /\ fst (fst (iterate fuel
                        (snd (fst (iterate fuel (getPages item ctx) st)))
                        (snd (iterate fuel (getPages item ctx) st))))
            = Some [page]).
Proof.
  intros H.
  destruct (H Foo 0 (store_of ref_mypkg) 2 (le_n 2)) as (page & _ & Hagain).
  discriminate Hagain.
Qed.

(** C7, amended: [getPages] produces a finite sequence of exactly one Emitted
    Page. The sequence is consumed by its iteration: iterating the same
    generator again yields no page, and a new call of [getPages] on the same
    inputs yields the same page again. *)
Theorem getPages_one_page
    (item : DocNodeImport) (ctx : Ref) (st : Store) (fuel : nat) :
  2 <= fuel ->
  exists page g,
    iterate fuel (getPages item ctx) st = (Some [page], g, st)
    /\ first_page (getPages item ctx) st = Some page
    /\ gen_state g = Completed
    /\ iterate fuel g st = (Some [], g, st)
    /\ fst (fst (iterate fuel (getPages item ctx)
                   (snd (iterate fuel (getPages item ctx) st))))
       = Some [page].
Proof.
  intros Hfuel. rewrite (iterate_getPages fuel item ctx st Hfuel).
  eexists. eexists. split; [reflexivity|].
  split; [reflexivity|]. split; [reflexivity|].
  split; [apply iterate_completed; [lia | reflexivity]|].
  cbn [snd]. now rewrite iterate_getPages.
Qed.

Lemma getPages_one_page_witness :
  exists page g,
    iterate 2 (getPages Foo 0) (store_of ref_mypkg)
    = (Some [page], g, store_of ref_mypkg)
    /\ first_page (getPages Foo 0) (store_of ref_mypkg) = Some page
    /\ gen_state g = Completed
    /\ iterate 2 g (store_of ref_mypkg) = (Some [], g, store_of ref_mypkg)
    /\ fst (fst (iterate 2 (getPages Foo 0)
                   (snd (iterate 2 (getPages Foo 0) (store_of ref_mypkg)))))
       = Some [page].
Proof.
  apply (getPages_one_page Foo 0 (store_of ref_mypkg) 2). lia.
Defined.

(** C8: no renderer invocation mutates the Reference Context: resuming a
    generator of [getPages] in any of its states, iterating it, calling
    [Import] and rendering a content all leave the whole store, and with it
    every field of every context, as it was on entry. *)
Theorem context_never_mutated :
  (forall (g : Generator) (st : Store), snd (next g st) = st)
  /\ (forall (fuel : nat) (g : Generator) (st : Store),
        snd (iterate fuel g st) = st)
  /\ (forall (props : Props) (st : Store), snd (Import props st) = st)
  /\ (forall (e : Jsx) (st : Store), snd (call_component e st) = st)
  /\ (forall (fuel : nat) (item : DocNodeImport) (ctx : Ref) (st : Store),
        contexts (snd (iterate fuel (getPages item ctx) st)) ctx
        = contexts st ctx).
Proof.
  split; [exact next_frame|]. split; [exact iterate_frame|].
  split; [exact Import_frame|]. split; [exact call_component_frame|].
  intros fuel item ctx st. now rewrite iterate_frame.
Qed.

(** C9: the title of the emitted page is the record's name verbatim, while
    the last segment of the url is the lower-cased name followed by
    [.import]; the record named [Foo] yields the title [Foo], which is not
    its lower case, and a url that ends in [/foo.import]. *)
Theorem title_keeps_case :
  (forall (item : DocNodeImport) (ctx : Ref) (st : Store),
     exists page,
       first_page (getPages item ctx) st = Some page
       /\ title page = name item
       /\ url page
          = (root (contexts st ctx) ++ "/"
             ++ JsString.toLocaleLowerCase (packageName (contexts st ctx)))
            ++ "/" ++ JsString.toLocaleLowerCase (name item) ++ ".import")
  /\ (exists page,
        first_page (getPages Foo 0) (store_of ref_mypkg) = Some page
        /\ title page = "Foo"
        /\ title page <> JsString.toLocaleLowerCase (title page)
        /\ JsString.endsWith (url page) "/foo.import" = true).
Proof.
  split.
  - intros item ctx st. unfold first_page. rewrite next_getPages.
    eexists. split; [reflexivity|]. split; [reflexivity|].
    cbn [url]. now rewrite !append_assoc.
  - eexists. split; [reflexivity|]. split; [reflexivity|].
    split; [discriminate | reflexivity].
Qed.

(** C10: the url of an import page depends only on the context's root and
    packageName and on the record's name: two records with the same name
    under contexts with the same root and packageName get the same url,
    whatever their payloads and the other fields of the contexts. The name
    goes into the url lower-cased and otherwise as it is: an empty name gives
    a url ending in [/.import], and a slash or a space of the name is in the
    url. *)
Theorem url_depends_on_root_package_name
    (item1 item2 : DocNodeImport) (ctx1 ctx2 : Ref) (st1 st2 : Store) :
  name item1 = name item2 ->
  root (contexts st1 ctx1) = root (contexts st2 ctx2) ->
  packageName (contexts st1 ctx1) = packageName (contexts st2 ctx2) ->
  option_map url (first_page (getPages item1 ctx1) st1)
  = option_map url (first_page (getPages item2 ctx2) st2)
  /\ option_map url (first_page (getPages item1 ctx1) st1)
     = Some (root (contexts st1 ctx1) ++ "/"
             ++ JsString.toLocaleLowerCase (packageName (contexts st1 ctx1))
             ++ "/" ++ JsString.toLocaleLowerCase (name item1) ++ ".import")
  /\ (name item1 = "" ->
      option_map url (first_page (getPages item1 ctx1) st1)
      = Some (root (contexts st1 ctx1) ++ "/"
              ++ JsString.toLocaleLowerCase (packageName (contexts st1 ctx1))
              ++ "/.import"))
  /\ option_map url (first_page (getPages (named "") 0) (store_of ref_mypkg))
     = Some "/ref/mypkg/.import"
  /\ option_map url (first_page (getPages (named "A/b C") 0) (store_of ref_mypkg))
     = Some "/ref/mypkg/a/b c.import".
Proof.
  intros Hn Hr Hp. unfold first_page. rewrite !next_getPages.
  cbn [fst value_of option_map url].
  split; [now rewrite Hn, Hr, Hp|]. split; [reflexivity|].
  split; [|split; reflexivity].
  intros ->. reflexivity.
Qed.

Lemma url_depends_on_root_package_name_witness :
  option_map url (first_page (getPages Foo 0) (store_of ref_mypkg))
  = option_map url
      (first_page (getPages (named "Foo") 1)
         (assign 0 REF_mypkg
            (store_of {| root := "/ref"; packageName := "mypkg";
                         others := [("symbols", JsArray [])] |})))
  /\ option_map url (first_page (getPages Foo 0) (store_of ref_mypkg))
     = Some "/ref/mypkg/foo.import".
Proof.
  destruct (url_depends_on_root_package_name Foo (named "Foo") 0 1
              (store_of ref_mypkg)
              (assign 0 REF_mypkg
                 (store_of {| root := "/ref"; packageName := "mypkg";
                              others := [("symbols", JsArray [])] |}))
              eq_refl eq_refl eq_refl) as (H1 & H2 & _).
  split; [exact H1 | exact H2].
Defined.

(** * Further properties of the renderer *)

(** ** Strings *)

Lemma append_inj_r a : forall b c, a ++ c = b ++ c -> a = b.
Proof.
  induction a as [|x a IH]; intros [|y b] c E.
  - reflexivity.
  - apply (f_equal String.length) in E. cbn in E. rewrite length_append in E. lia.
  - apply (f_equal String.length) in E. cbn in E. rewrite length_append in E. lia.
  - cbn in E. injection E as -> E. f_equal. now apply (IH b c).
Qed.


Lemma substring_append a b :
  String.substring (String.length a) (String.length b) (a ++ b) = b.
Proof.
  induction a as [|x a IH]; cbn; [|exact IH].
  induction b as [|y b IHb]; cbn; [reflexivity | now rewrite IHb].
Qed.

Lemma endsWith_append a b : JsString.endsWith (a ++ b) b = true.
Proof.
  unfold JsString.endsWith. rewrite length_append.
  replace (String.length a + String.length b - String.length b)
    with (String.length a) by lia.
  rewrite substring_append, String.eqb_refl, andb_true_r.
  apply Nat.leb_le. lia.
Qed.

Lemma contexts_assign r c st : contexts (assign r c st) r = c.
Proof. cbn. now rewrite Nat.eqb_refl. Qed.

(** ** Collisions of urls *)

(** X1: in one package, the pages of two import records have the same url
    exactly when their names are equal up to case. *)
Theorem url_collision_iff
    (item1 item2 : DocNodeImport) (ctx : Ref) (st : Store) :
  option_map url (first_page (getPages item1 ctx) st)
  = option_map url (first_page (getPages item2 ctx) st)
  <-> JsString.toLocaleLowerCase (name item1)
      = JsString.toLocaleLowerCase (name item2).
Proof.
  unfold first_page. rewrite !next_getPages. cbn [fst value_of option_map url].
  split.
  - intros [= E]. apply append_inj_l in E.
    cbn [String.append] in E. injection E as E. apply append_inj_l in E.
    cbn [String.append] in E. injection E as E. now apply append_inj_r in E.
  - intros ->. reflexivity.
Qed.



(** X3: the url of every import page ends with [.import], whatever the
    root, the package and the name are. *)
Theorem url_ends_with_import
    (item : DocNodeImport) (ctx : Ref) (st : Store) :
  exists page,
    first_page (getPages item ctx) st = Some page
    /\ JsString.endsWith (url page) ".import" = true.
Proof.
  unfold first_page. rewrite next_getPages. eexists. split; [reflexivity|].
  cbn [url]. rewrite <- !append_assoc. apply endsWith_append.
Qed.

Lemma toLocaleLowerCase_lowercase s :
  JsString.is_lowercase s = true -> JsString.toLocaleLowerCase s = s.
Proof.
  unfold JsString.is_lowercase. induction s as [|c s IH]; [reflexivity|].
  cbn [JsString.forallb JsString.toLocaleLowerCase]. intros H.
  apply andb_true_iff in H as [Hc Hs]. rewrite (IH Hs).
  unfold JsString.lower_unit. apply negb_true_iff in Hc. now rewrite Hc.
Qed.

(** X4: a packageName and a name without upper-case letters go into the url
    as they are: the url is the root, the packageName and the name joined by
    slashes, followed by [.import]. *)
Theorem url_of_lowercase_names
    (item : DocNodeImport) (ctx : Ref) (st : Store) :
  JsString.is_lowercase (packageName (contexts st ctx)) = true ->
  JsString.is_lowercase (name item) = true ->
  option_map url (first_page (getPages item ctx) st)
  = Some (root (contexts st ctx) ++ "/" ++ packageName (contexts st ctx)
          ++ "/" ++ name item ++ ".import").
Proof.
  intros Hp Hn. unfold first_page. rewrite next_getPages.
  cbn [fst value_of option_map url].
  now rewrite (toLocaleLowerCase_lowercase _ Hp), (toLocaleLowerCase_lowercase _ Hn).
Qed.

Lemma url_of_lowercase_names_witness :
  option_map url
    (first_page (getPages (named "read_file") 0) (store_of REF_mypkg))
  = Some "/REF/mypkg/read_file.import".
Proof.
  apply (url_of_lowercase_names (named "read_file") 0 (store_of REF_mypkg));
    reflexivity.
Defined.

(** ** The context is read late and kept by reference *)

(** X5: the body of [getPages] runs at the first [next()], and the content
    keeps the context by reference. A context changed after the call of
    [getPages] is the one the url is built from; a context changed after the
    page was yielded leaves that page's url as it is, while the navigation of
    its content, rendered afterwards, has the new packageName for
    category. *)
Theorem context_read_when_resumed
    (item : DocNodeImport) (ctx : Ref) (st : Store) (c' : ReferenceContext) :
  option_map url (first_page (getPages item ctx) (assign ctx c' st))
  = Some (root c' ++ "/" ++ JsString.toLocaleLowerCase (packageName c') ++ "/"
          ++ JsString.toLocaleLowerCase (name item) ++ ".import")
  /\ exists page,
       first_page (getPages item ctx) st = Some page
       /\ url page
          = root (contexts st ctx) ++ "/"
            ++ JsString.toLocaleLowerCase (packageName (contexts st ctx)) ++ "/"
            ++ JsString.toLocaleLowerCase (name item) ++ ".import"
       /\ navigation_of (fst (call_component (content page) (assign ctx c' st)))
          = Some {| category := packageName c';
                    currentItemName := name item |}.
Proof.
  unfold first_page. rewrite !next_getPages.
  cbn [fst value_of option_map url]. rewrite contexts_assign.
  split; [reflexivity|].
  eexists. split; [reflexivity|]. split; [reflexivity|].
  cbn [content call_component]. unfold Import, bind, get_packageName, ret.
  cbn [fst navigation_of context data]. rewrite contexts_assign. reflexivity.
Qed.

(** ** One page, however the generator is consumed *)

Lemma iterate_completed_after_yield fuel item ctx st :
  1 <= fuel ->
  iterate fuel (resume (getPages item ctx) SuspendedYield) st
  = (Some [], resume (resume (getPages item ctx) SuspendedYield) Completed, st).
Proof. intros H. destruct fuel as [|fuel]; [lia | reflexivity]. Qed.

Lemma take_next_S k g st r g1 :
  next g st = (r, g1, st) ->
  take_next (S k) g st
  = (match r with
     | Yield page => page :: fst (fst (take_next k g1 st))
     | Done => fst (fst (take_next k g1 st))
     end,
     snd (fst (take_next k g1 st)), snd (take_next k g1 st)).
Proof.
  intros H. cbn [take_next]. unfold bind, ret. rewrite H. cbn [fst snd].
  now destruct (take_next k g1 st) as [[ps g2] st2].
Qed.

Lemma take_next_completed k : forall g st,
  gen_state g = Completed -> take_next k g st = ([], g, st).
Proof.
  induction k as [|k IH]; intros g st Hg; [reflexivity|].
  rewrite (take_next_S k g st Done g).
  - now rewrite (IH g st Hg).
  - unfold next. now rewrite Hg.
Qed.

(** X6: whatever number of [next()] calls a consumer makes by hand before it
    iterates the rest of the generator, the pages of the calls followed by
    the pages of the iteration are exactly the one page of [getPages]. *)
Theorem one_page_however_consumed
    (item : DocNodeImport) (ctx : Ref) (st : Store) (k fuel : nat) :
  2 <= fuel ->
  exists page,
    first_page (getPages item ctx) st = Some page
    /\ option_map (List.app (fst (fst (take_next k (getPages item ctx) st))))
         (fst (fst (iterate fuel
                      (snd (fst (take_next k (getPages item ctx) st)))
                      (snd (take_next k (getPages item ctx) st)))))
       = Some [page].
Proof.
  intros Hfuel. unfold first_page. rewrite next_getPages.
  eexists. split; [reflexivity|].
  destruct k as [|[|k]].
  - cbn [take_next]. unfold ret. cbn [fst snd].
    rewrite iterate_getPages by exact Hfuel. reflexivity.
  - cbn. rewrite iterate_completed_after_yield; [reflexivity | lia].
  - rewrite (take_next_S _ _ _ _ _ (next_getPages item ctx st)).
    rewrite (take_next_S k _ st Done
               (resume (resume (getPages item ctx) SuspendedYield) Completed))
      by reflexivity.
    rewrite take_next_completed by reflexivity. cbn [fst snd].
    rewrite iterate_completed; [reflexivity | lia | reflexivity].
Qed.

Lemma one_page_however_consumed_witness :
  exists page,
    first_page (getPages Foo 0) (store_of ref_mypkg) = Some page
    /\ option_map (List.app (fst (fst (take_next 1 (getPages Foo 0) (store_of ref_mypkg)))))
         (fst (fst (iterate 2
                      (snd (fst (take_next 1 (getPages Foo 0) (store_of ref_mypkg))))
                      (snd (take_next 1 (getPages Foo 0) (store_of ref_mypkg))))))
       = Some [page].
Proof.
  apply (one_page_however_consumed Foo 0 (store_of ref_mypkg) 1 2). lia.
Defined.

(** ** The dump *)

Lemma dump_of_Import d ctx st :
  dump_of (fst (Import {| data := d; context := ctx |} st))
  = Some (JSON.stringify (DocNode_value d) 2).
Proof. reflexivity. Qed.

(** X7: [Import] takes a record of any kind, and its dump tells the records
    apart: two records whose dumps are the same text are the same record,
    kind, name and payload. *)
Theorem Import_dump_injective
    (d1 d2 : DocNode) (ctx1 ctx2 : Ref) (st1 st2 : Store) :
  dump_of (fst (Import {| data := d1; context := ctx1 |} st1))
  = dump_of (fst (Import {| data := d2; context := ctx2 |} st2)) ->
  d1 = d2.
Proof.
  rewrite !dump_of_Import. intros E.
  apply (f_equal (fun o => match o with
                           | Some text => Reader.read_DocNode text
                           | None => None
                           end)) in E.
  cbv beta iota in E. rewrite !read_DocNode_stringify in E. now injection E.
Qed.

Lemma Import_dump_injective_witness :
  dump_of (fst (Import {| data := as_DocNode Foo; context := 0 |}
                  (store_of ref_mypkg)))
  = dump_of (fst (Import {| data := {| kind := KindImport; base := Foo |};
                            context := 1 |}
                    (store_of REF_mypkg)))
  /\ as_DocNode Foo = {| kind := KindImport; base := Foo |}.
Proof.
  split; [reflexivity|].
  apply (Import_dump_injective _ _ 0 1 (store_of ref_mypkg) (store_of REF_mypkg)).
  reflexivity.
Defined.











